(** * nanohelp.secret: a shallow embedding of [SecretManager]

    The module [src/nanohelp/secret.py] wraps a secret-storage client:
    it draws random key material, stores it through the client with a
    rotation schedule and reads it back.  The embedding below follows the
    Python text method by method.  Python values that cross the border to
    the client are kept dynamically typed ([pyval]); exceptions are values
    with a class, a message and a [__cause__]; a method is a function on a
    [World] holding everything the module can observe or change: the random
    source, the clock, the state of the remote service, the client calls
    issued so far and the log. *)

From Stdlib Require Import ZArith NArith PeanoNat List String Ascii Bool Lia.
From Stdlib Require Import DecimalString.
From Stdlib Require Import Floats.SpecFloat.
Import ListNotations.

Set Implicit Arguments.
Set Warnings "-register-all".

(** ** Python data *)

Module Py.

(** A Python [str] is a sequence of Unicode code points, [bytes] a sequence
    of octets. *)
Definition str := list N.
Definition bytes := list Byte.byte.

(** String literals of the source text (all of them are ASCII). *)
Definition lit (s : string) : str :=
  List.map N_of_ascii (list_ascii_of_string s).

Fixpoint str_eqb (a b : str) : bool :=
  match a, b with
  | [], [] => true
  | x :: a', y :: b' => N.eqb x y && str_eqb a' b'
  | _, _ => false
  end.

(** The values exchanged with the client: the payload handed over on a
    write, the response object handed back on a read. *)
Inductive pyval : Type :=
| VNone
| VStr (s : str)
| VBytes (b : bytes)
| VInt (z : Z)
| VDict (items : list (str * pyval))
| VObj (cls : str) (attrs : list (str * pyval)).

Definition type_name (v : pyval) : str :=
  match v with
  | VNone => lit "NoneType"
  | VStr _ => lit "str"
  | VBytes _ => lit "bytes"
  | VInt _ => lit "int"
  | VDict _ => lit "dict"
  | VObj cls _ => cls
  end.

Fixpoint lookup (k : str) (items : list (str * pyval)) : option pyval :=
  match items with
  | [] => None
  | (k', v) :: rest => if str_eqb k k' then Some v else lookup k rest
  end.

(** Exception classes: the builtin ones the module can meet, and
    [ServiceError] for whatever class the client library raises.  All of
    them derive from [Exception], which is what [except Exception] catches. *)
Inductive exn_class : Type :=
| TypeError
| RuntimeError
| NotImplementedError
| AttributeError
| UnicodeDecodeError
| OverflowError
| ValueError
| ServiceError (name : str).

(** An exception instance: [str(e)] is [exn_msg e], [e.__cause__] is
    [exn_cause e] (set by [raise ... from e]). *)
Inductive exn : Type :=
| Exn (cls : exn_class) (msg : str) (cause : option exn).

Definition exn_cls (e : exn) : exn_class := let (c, _, _) := e in c.
Definition exn_msg (e : exn) : str := let (_, m, _) := e in m.
Definition exn_cause (e : exn) : option exn := let (_, _, c) := e in c.

(** Outcome of evaluating an expression or running a statement. *)
Inductive result (A : Type) : Type :=
| Ok (a : A)
| Raise (e : exn).
Arguments Ok {A} a.
Arguments Raise {A} e.

(** [getattr(v, name)] for the attribute names the source reads ([payload],
    [data], [decode]); none of the builtin types defines one of them, so
    only objects can answer. *)
Definition getattr (v : pyval) (name : str) : result pyval :=
  let missing :=
    Raise (Exn AttributeError
             (lit "'" ++ type_name v ++ lit "' object has no attribute '"
                  ++ name ++ lit "'") None) in
  match v with
  | VObj _ attrs =>
      match lookup name attrs with
      | Some a => Ok a
      | None => missing
      end
  | _ => missing
  end.

End Py.
Export Py.

(** ** [bytes.hex] *)

Module Hex.

(** The lowercase hexadecimal digit of a value below 16. *)
Definition digit (n : N) : N :=
  if (n <? 10)%N then (48 + n)%N else (87 + n)%N.

Definition of_byte (b : Byte.byte) : str :=
  let n := Byte.to_N b in [digit (n / 16); digit (n mod 16)].

(** [b.hex()]: two digits per octet, most significant first. *)
Fixpoint hex (b : bytes) : str :=
  match b with
  | [] => []
  | x :: rest => of_byte x ++ hex rest
  end.

(** Membership in the character class [0-9a-f]. *)
Definition is_lower_hex (c : N) : bool :=
  ((48 <=? c) && (c <=? 57) || (97 <=? c) && (c <=? 102))%N.

End Hex.

(** ** [bytes.decode('UTF-8')] *)

Module Utf8.

Definition cont (b : N) : bool := ((128 <=? b) && (b <=? 191))%N.
Definition between (lo b hi : N) : bool := ((lo <=? b) && (b <=? hi))%N.
Definition low6 (b : N) : N := (b mod 64)%N.

(** Strict decoding, as CPython does it: shortest form only, no surrogates,
    nothing above U+10FFFF.  [None] stands for [UnicodeDecodeError]. *)
Fixpoint decode_N (bs : list N) : option str :=
  match bs with
  | [] => Some []
  | b0 :: r0 =>
      if (b0 <? 128)%N then option_map (cons b0) (decode_N r0)
      else if between 194 b0 223 then
        match r0 with
        | b1 :: r1 =>
            if cont b1
            then option_map (cons ((b0 mod 32) * 64 + low6 b1)%N) (decode_N r1)
            else None
        | _ => None
        end
      else if between 224 b0 239 then
        match r0 with
        | b1 :: b2 :: r2 =>
            let lo1 := if (b0 =? 224)%N then 160%N else 128%N in
            let hi1 := if (b0 =? 237)%N then 159%N else 191%N in
            if between lo1 b1 hi1 && cont b2
            then option_map
                   (cons ((b0 mod 16) * 4096 + low6 b1 * 64 + low6 b2)%N)
                   (decode_N r2)
            else None
        | _ => None
        end
      else if between 240 b0 244 then
        match r0 with
        | b1 :: b2 :: b3 :: r3 =>
            let lo1 := if (b0 =? 240)%N then 144%N else 128%N in
            let hi1 := if (b0 =? 244)%N then 143%N else 191%N in
            if between lo1 b1 hi1 && cont b2 && cont b3
            then option_map
                   (cons ((b0 mod 8) * 262144 + low6 b1 * 4096
                          + low6 b2 * 64 + low6 b3)%N)
                   (decode_N r3)
            else None
        | _ => None
        end
      else None
  end.

Definition decode (b : bytes) : option str :=
  decode_N (List.map Byte.to_N b).

(** Why CPython's decoder stops. *)
Inductive reason : Type :=
| unexpected_end_of_data
| invalid_start_byte
| invalid_continuation_byte.

(** Where it stops: the octets from [start] up to, not including, [stop],
    and the octet at [start]. *)
Record failure : Type := mkFailure {
  start : nat;
  stop : nat;
  octet : N;
  why : reason
}.

(** The first malformed sequence, as CPython's decoder reports it.  A
    sequence cut short by the end of the input is reported up to that end;
    a wrong second, third or fourth octet ends the report just before it;
    an octet that cannot start a sequence is reported alone. *)
Fixpoint locate (bs : list N) (pos : nat) : option failure :=
  match bs with
  | [] => None
  | b0 :: r0 =>
      let stopped n r := Some (mkFailure pos (pos + n) b0 r) in
      if (b0 <? 128)%N then locate r0 (pos + 1)
      else if (b0 <? 194)%N then stopped 1 invalid_start_byte
      else if (b0 <? 224)%N then
        match r0 with
        | [] => stopped 1 unexpected_end_of_data
        | b1 :: r1 =>
            if cont b1 then locate r1 (pos + 2)
            else stopped 1 invalid_continuation_byte
        end
      else if (b0 <? 240)%N then
        match r0 with
        | [] => stopped 1 unexpected_end_of_data
        | b1 :: r1 =>
            if negb (cont b1)
               || (if (b1 <? 160)%N then (b0 =? 224)%N else (b0 =? 237)%N)
            then stopped 1 invalid_continuation_byte
            else
              match r1 with
              | [] => stopped 2 unexpected_end_of_data
              | b2 :: r2 =>
                  if cont b2 then locate r2 (pos + 3)
                  else stopped 2 invalid_continuation_byte
              end
        end
      else if (b0 <? 245)%N then
        match r0 with
        | [] => stopped 1 unexpected_end_of_data
        | b1 :: r1 =>
            if negb (cont b1)
               || (if (b1 <? 144)%N then (b0 =? 240)%N else (b0 =? 244)%N)
            then stopped 1 invalid_continuation_byte
            else
              match r1 with
              | [] => stopped 2 unexpected_end_of_data
              | b2 :: r2 =>
                  if negb (cont b2) then stopped 2 invalid_continuation_byte
                  else
                    match r2 with
                    | [] => stopped 3 unexpected_end_of_data
                    | b3 :: r3 =>
                        if cont b3 then locate r3 (pos + 4)
                        else stopped 3 invalid_continuation_byte
                    end
              end
        end
      else stopped 1 invalid_start_byte
  end.

Definition reason_text (r : reason) : str :=
  match r with
  | unexpected_end_of_data => lit "unexpected end of data"
  | invalid_start_byte => lit "invalid start byte"
  | invalid_continuation_byte => lit "invalid continuation byte"
  end.

(** [%d] of a position. *)
Definition decimal (n : nat) : str :=
  lit (NilZero.string_of_uint (Nat.to_uint n)).

(** [str(e)] of the [UnicodeDecodeError] for a failure. *)
Definition failure_text (f : failure) : str :=
  if Nat.eqb (stop f) (start f + 1) then
    lit "'utf-8' codec can't decode byte 0x"
        ++ [Hex.digit (octet f / 16); Hex.digit (octet f mod 16)]
        ++ lit " in position " ++ decimal (start f)
        ++ lit ": " ++ reason_text (why f)
  else
    lit "'utf-8' codec can't decode bytes in position "
        ++ decimal (start f) ++ lit "-" ++ decimal (stop f - 1)
        ++ lit ": " ++ reason_text (why f).

(** The message for an input that does not decode. *)
Definition message (b : bytes) : str :=
  match locate (List.map Byte.to_N b) 0 with
  | Some f => failure_text f
  | None => []
  end.

End Utf8.

(** [v.decode('UTF-8')].  Only [bytes] has the method; an object carrying a
    plain attribute of that name is not callable.  The message for a
    malformed input names the octet, its position and the reason, as
    CPython's does. *)
Definition py_decode (v : pyval) : result str :=
  match v with
  | VBytes b =>
      match Utf8.decode b with
      | Some s => Ok s
      | None => Raise (Exn UnicodeDecodeError (Utf8.message b) None)
      end
  | _ =>
      match getattr v (lit "decode") with
      | Ok a =>
          Raise (Exn TypeError
                   (lit "'" ++ type_name a ++ lit "' object is not callable")
                   None)
      | Raise e => Raise e
      end
  end.

(** ** Binary64 arithmetic of [time.time() + rotation_time] *)

Module Float.

(** A Python [float] is an IEEE 754 binary64 number. *)
Definition float := spec_float.
Definition prec : Z := 53.
Definition emax : Z := 1024.

(** Conversion of an [int] operand, correctly rounded; an [int] beyond the
    range of binary64 raises. *)
Definition of_int (z : Z) : result float :=
  match binary_normalize prec emax z 0 false with
  | S754_infinity _ =>
      Raise (Exn OverflowError (lit "int too large to convert to float") None)
  | f => Ok f
  end.

Definition add (x y : float) : float := SFadd prec emax x y.

(** [x + z] for a float [x] and an int [z]. *)
Definition add_int (x : float) (z : Z) : result float :=
  match of_int z with
  | Ok y => Ok (add x y)
  | Raise e => Raise e
  end.

(** [int(x)]: truncation towards zero. *)
Definition to_int (x : float) : result Z :=
  match x with
  | S754_zero _ => Ok 0%Z
  | S754_infinity _ =>
      Raise (Exn OverflowError
               (lit "cannot convert float infinity to integer") None)
  | S754_nan =>
      Raise (Exn ValueError (lit "cannot convert float NaN to integer") None)
  | S754_finite s m e =>
      Ok (cond_Zopp s
            (if (0 <=? e)%Z then Z.shiftl (Zpos m) e
             else Z.shiftr (Zpos m) (- e)))
  end.


(** The float nearest to [n / 2^f]: a reading with [f] binary places. *)
Definition dyadic (n f : Z) : float :=
  binary_normalize prec emax n (- f) false.

End Float.

(** ** The world of the module *)

(** One invocation of a client operation, with its arguments. *)
Inductive call : Type :=
| secret_version_path_call (project secret secret_version : str)
| add_secret_version_with_rotation_call
    (parent : str) (payload rotation_schedule : pyval)
| access_secret_version_call (name : str).

(** An invocation together with the exception it ended in, if any. *)
Record event : Type := mkEvent {
  invoked : call;
  raised : option exn
}.

(** What [LOG.error] and [LOG.exception] were given. *)
Inductive log_record : Type :=
| LogError (msg : str)
| LogException (e : exn).

Record World (S : Type) : Type := mkWorld {
  entropy : nat -> Byte.byte;   (* the octets the OS random source delivers *)
  drawn : nat;                  (* how many of them were consumed *)
  clock : nat -> Float.float;   (* successive readings of [time.time()] *)
  ticks : nat;                  (* how many readings were taken *)
  service : S;                  (* state of the remote secret store *)
  calls : list event;           (* client operations so far, oldest first *)
  log : list log_record         (* log records so far, oldest first *)
}.

(** The three operations consumed from the client object.  Each may change
    the remote state and may raise. *)
Record SecretManagerServiceClient (S : Type) : Type := mkClient {
  secret_version_path : str -> str -> str -> S -> result str * S;
  add_secret_version_with_rotation :
    str -> pyval -> pyval -> S -> result pyval * S;
  access_secret_version : str -> S -> result pyval * S
}.

(** ** Statements: state passing with exceptions *)

Definition M (S A : Type) : Type := World S -> result A * World S.

Definition ret {S A} (a : A) : M S A := fun w => (Ok a, w).

Definition raise {S A} (e : exn) : M S A := fun w => (Raise e, w).

Definition bind {S A B} (m : M S A) (k : A -> M S B) : M S B :=
  fun w =>
    match m w with
    | (Ok a, w') => k a w'
    | (Raise e, w') => (Raise e, w')
    end.

Notation "x <- m ;; k" := (bind m (fun x => k))
  (at level 61, m at next level, right associativity).
Notation "m ;;; k" := (bind m (fun _ => k))
  (at level 61, right associativity).

(** Lifting the outcome of a pure expression. *)
Definition eval {S A} (r : result A) : M S A := fun w => (r, w).

(** [try: body  except Exception as e: handler e]. *)
Definition try_except {S A} (body : M S A) (handler : exn -> M S A) : M S A :=
  fun w =>
    match body w with
    | (Ok a, w') => (Ok a, w')
    | (Raise e, w') => handler e w'
    end.

(** [raise cls(msg) from e]. *)
Definition raise_from {S A} (cls : exn_class) (msg : str) (e : exn) : M S A :=
  raise (Exn cls msg (Some e)).

(** ** Primitive effects *)

Section Primitives.
Context {S : Type}.

(** [time.time()]: the next reading of the clock. *)
Definition time_time : M S Float.float :=
  fun w =>
    (Ok (clock w (ticks w)),
     mkWorld (entropy w) (drawn w) (clock w) (Datatypes.S (ticks w))
             (service w) (calls w) (log w)).

(** The [n] octets the random source delivers next. *)
Definition next_octets (n : nat) (w : World S) : bytes :=
  List.map (entropy w) (List.seq (drawn w) n).

(** [secrets.token_bytes(n)]: draws the next [n] octets. *)
Definition token_bytes (n : nat) : M S bytes :=
  fun w =>
    (Ok (next_octets n w),
     mkWorld (entropy w) (drawn w + n) (clock w) (ticks w)
             (service w) (calls w) (log w)).

(** [secrets.token_hex(n)] is [token_bytes(n).hex()]. *)
Definition token_hex (n : nat) : M S str :=
  b <- token_bytes n ;; ret (Hex.hex b).

Definition LOG_error (msg : str) : M S unit :=
  fun w =>
    (Ok tt,
     mkWorld (entropy w) (drawn w) (clock w) (ticks w)
             (service w) (calls w) (log w ++ [LogError msg])).

Definition LOG_exception (e : exn) : M S unit :=
  fun w =>
    (Ok tt,
     mkWorld (entropy w) (drawn w) (clock w) (ticks w)
             (service w) (calls w) (log w ++ [LogException e])).

(** Running a client operation [op] announced as [c]: the remote state
    moves on and the invocation is recorded with its outcome. *)
Definition invoke {A} (c : call) (op : S -> result A * S) : M S A :=
  fun w =>
    let (r, s') := op (service w) in
    (r,
     mkWorld (entropy w) (drawn w) (clock w) (ticks w) s'
             (calls w
                ++ [mkEvent c match r with Ok _ => None | Raise e => Some e end])
             (log w)).

(** [secretmanager.types.RotationSchedule(next_rotation_time=t)]. *)
Definition RotationSchedule (next_rotation_time : pyval) : pyval :=
  VObj (lit "RotationSchedule")
       [(lit "next_rotation_time", next_rotation_time)].

End Primitives.

(** ** Binding of positional arguments *)

(** The positional arguments a caller may pass to [store_private_key],
    each of the annotated type of its parameter. *)
Inductive store_args : Type :=
| args0
| args1 (project : str)
| args2 (project name : str)
| args3 (project name private_key : str)
| args4 (project name private_key version : str)
| args5 (project name private_key version : str) (rotation_time : Z).

(** The required parameters of [store_private_key] after [self]. *)
Definition store_private_key_required : list str :=
  [lit "project"; lit "name"; lit "private_key"].

Definition quoted (s : str) : str := lit "'" ++ s ++ lit "'".

(** CPython's enumeration of the names of missing arguments. *)
Fixpoint comma_list (names : list str) : str :=
  match names with
  | [] => []
  | [z] => lit "and " ++ quoted z
  | y :: rest => quoted y ++ lit ", " ++ comma_list rest
  end.

Definition name_list (names : list str) : str :=
  match names with
  | [] => []
  | [a] => quoted a
  | [a; b] => quoted a ++ lit " and " ++ quoted b
  | _ => comma_list names
  end.

Definition decimal_digit (n : nat) : str := [N.of_nat (48 + n)].

(** The [TypeError] raised when [given] positional arguments (fewer than
    required) are passed to [qualname]. *)
Definition missing_arguments (qualname : str) (required : list str)
           (given : nat) : exn :=
  let missing := List.skipn given required in
  let n := List.length missing in
  Exn TypeError
      (qualname ++ lit "() missing " ++ decimal_digit n
                ++ lit " required positional argument"
                ++ (if Nat.eqb n 1 then [] else lit "s") ++ lit ": "
                ++ name_list missing)
      None.

(** ** The methods of [SecretManager] *)

Section SecretManager.
Context {S : Type}.

(** [self.secret_manager_client], the client object [__init__] creates. *)
Variable secret_manager_client : SecretManagerServiceClient S.

(** Defaults of the signature of [store_private_key]. *)
Definition default_version : str := lit "latest".
Definition default_rotation_time : Z := 60 * 60 * 24 * 30.

Definition generate_private_key : M S str :=
  token_hex 32.

(** The [try] block of [store_private_key]. *)
Definition store_private_key_try
           (project name private_key version : str) (rotation_time : Z)
  : M S unit :=
  secret <-
    invoke (secret_version_path_call project name version)
           (secret_version_path secret_manager_client project name version) ;;
  now <- time_time ;;
  sum <- eval (Float.add_int now rotation_time) ;;
  seconds <- eval (Float.to_int sum) ;;
  let payload := VDict [(lit "key", VStr private_key)] in
  let rotation_schedule :=
    RotationSchedule (VDict [(lit "seconds", VInt seconds)]) in
  invoke (add_secret_version_with_rotation_call
            secret payload rotation_schedule)
         (add_secret_version_with_rotation
            secret_manager_client secret payload rotation_schedule) ;;;
  ret tt.

(** The [except Exception as e] block of [store_private_key]. *)
Definition store_private_key_except (name : str) (e : exn) : M S unit :=
  LOG_error (lit "Failed to store private key for " ++ name ++ lit ": "
                 ++ exn_msg e) ;;;
  LOG_exception e ;;;
  raise_from RuntimeError (lit "Unable to store secret: " ++ exn_msg e) e.

Definition store_private_key
           (project name private_key version : str) (rotation_time : Z)
  : M S unit :=
  try_except
    (store_private_key_try project name private_key version rotation_time)
    (store_private_key_except name).

(** A positional call [self.store_private_key(...)]: the arguments are
    bound to the parameters before the body runs. *)
Definition store_private_key_call (args : store_args) : M S unit :=
  let missing given :=
    raise (missing_arguments (lit "SecretManager.store_private_key")
                             store_private_key_required given) in
  match args with
  | args0 => missing 0
  | args1 _ => missing 1
  | args2 _ _ => missing 2
  | args3 project name private_key =>
      store_private_key project name private_key
                        default_version default_rotation_time
  | args4 project name private_key version =>
      store_private_key project name private_key
                        version default_rotation_time
  | args5 project name private_key version rotation_time =>
      store_private_key project name private_key version rotation_time
  end.

Definition generate_and_store_private_key (user : str) : M S str :=
  private_key <- generate_private_key ;;
  store_private_key_call (args2 user private_key) ;;;
  ret private_key.

(** The [except Exception as e] block of [get_private_key]; [name] is the
    binding of the variable when the exception arrived. *)
Definition get_private_key_except (name : str) (e : exn) : M S str :=
  LOG_error (lit "Failed to retrieve private key for " ++ name ++ lit ": "
                 ++ exn_msg e) ;;;
  LOG_exception e ;;;
  raise_from RuntimeError (lit "Unable to retrieve secret: " ++ exn_msg e) e.

(** The statements of the [try] block after the rebinding of [name]. *)
Definition get_private_key_fetch (name : str) : M S str :=
  response <-
    invoke (access_secret_version_call name)
           (access_secret_version secret_manager_client name) ;;
  response_payload <- eval (getattr response (lit "payload")) ;;
  data <- eval (getattr response_payload (lit "data")) ;;
  payload <- eval (py_decode data) ;;
  ret payload.

(** The first statement of the [try] block assigns to the parameter
    [name]; the handler formats whichever binding is current, so the
    block is split at the assignment. *)
Definition get_private_key (project name version : str) : M S str :=
  name' <-
    try_except
      (invoke (secret_version_path_call project name version)
              (secret_version_path secret_manager_client
                                   project name version))
      (get_private_key_except name) ;;
  try_except (get_private_key_fetch name') (get_private_key_except name').

(** The whole [try] block of [get_private_key], handlers left out. *)
Definition get_private_key_try (project name version : str) : M S str :=
  name' <-
    invoke (secret_version_path_call project name version)
           (secret_version_path secret_manager_client
                                project name version) ;;
  get_private_key_fetch name'.

(** Default of the signature of [get_private_key]. *)
Definition default_get_version : str := lit "latest".

Definition rotate_private_key (name : str) : M S str :=
  (raise (Exn NotImplementedError
              (lit "No use case found for rotating private keys (using this for crypto wallets is a bad idea)")
              None) : M S unit) ;;;
  try_except
    (generate_and_store_private_key name)
    (fun e =>
       raise_from RuntimeError
                  (lit "Unable to rotate private key: " ++ exn_msg e) e).

End SecretManager.

(** ** Vocabulary of the specification *)

(** The two error kinds the specification names, as the module raises them:
    a [RuntimeError] with a fixed prefix, chained to its cause. *)
Definition StoreFailure (cause : exn) : exn :=
  Exn RuntimeError (lit "Unable to store secret: " ++ exn_msg cause)
      (Some cause).

Definition ReadFailure (cause : exn) : exn :=
  Exn RuntimeError (lit "Unable to retrieve secret: " ++ exn_msg cause)
      (Some cause).

(** Turning the failure of a [try] block into the given error kind. *)
Definition surfaced {A} (kind : exn -> exn) (r : result A) : result A :=
  match r with
  | Ok a => Ok a
  | Raise e => Raise (kind e)
  end.

(** [int(now + rotation_time)], the value sent as [seconds]. *)
Definition next_rotation_seconds (now : Float.float) (rotation_time : Z)
  : result Z :=
  match Float.add_int now rotation_time with
  | Ok sum => Float.to_int sum
  | Raise e => Raise e
  end.

(** The payload and the schedule [store_private_key] builds. *)
Definition key_payload (private_key : str) : pyval :=
  VDict [(lit "key", VStr private_key)].

Definition schedule_at (seconds : Z) : pyval :=
  RotationSchedule (VDict [(lit "seconds", VInt seconds)]).


(** The exceptions client operations ended in during a run. *)
Fixpoint client_failures (evs : list event) : list exn :=
  match evs with
  | [] => []
  | mkEvent _ (Some e) :: rest => e :: client_failures rest
  | mkEvent _ None :: rest => client_failures rest
  end.



(** Octets below 0x80, the ones that spell ASCII text. *)
Definition is_ascii (b : Byte.byte) : bool := (Byte.to_N b <? 128)%N.

(** Unicode scalar values: code points up to U+10FFFF that are not
    surrogates. *)
Definition is_scalar (c : N) : bool :=
  ((c <? 55296) || (57344 <=? c) && (c <? 1114112))%N.

(** What reading [response.payload.data.decode('UTF-8')] yields. *)
Definition read_payload (response : pyval) : result str :=
  match getattr response (lit "payload") with
  | Ok response_payload =>
      match getattr response_payload (lit "data") with
      | Ok data => py_decode data
      | Raise e => Raise e
      end
  | Raise e => Raise e
  end.

(** ** Reference clients *)

(** An in-memory secret store in the shape of the client interface: versions
    are appended under their resource name and handed back as they were
    submitted. *)
Module InMemory.

Definition state : Type := list (str * (pyval * pyval)).

Definition path (project secret secret_version : str) : str :=
  lit "projects/" ++ project ++ lit "/secrets/" ++ secret
      ++ lit "/versions/" ++ secret_version.

(** The version submitted last under [name]. *)
Fixpoint latest (name : str) (s : state) : option pyval :=
  match s with
  | [] => None
  | (n, (payload, _)) :: rest =>
      match latest name rest with
      | Some p => Some p
      | None => if str_eqb name n then Some payload else None
      end
  end.

Definition not_found (name : str) : exn :=
  Exn (ServiceError (lit "NotFound"))
      (lit "404 Secret Version [" ++ name ++ lit "] not found.") None.

Definition client : SecretManagerServiceClient state :=
  {| secret_version_path := fun p n v s => (Ok (path p n v), s);
     add_secret_version_with_rotation := fun parent payload schedule s =>
       (Ok (VObj (lit "SecretVersion") [(lit "name", VStr parent)]),
        s ++ [(parent, (payload, schedule))]);
     access_secret_version := fun name s =>
       match latest name s with
       | Some payload =>
           (Ok (VObj (lit "AccessSecretVersionResponse")
                     [(lit "name", VStr name); (lit "payload", payload)]), s)
       | None => (Raise (not_found name), s)
       end |}.

(** A payload as the service's wire format has it: the secret octets under
    [data]. *)
Definition SecretPayload (data : bytes) : pyval :=
  VObj (lit "SecretPayload") [(lit "data", VBytes data)].

End InMemory.

(** A service that cannot be reached: resource names are still formatted
    locally, every remote operation raises. *)
Module Unavailable.

Definition error : exn :=
  Exn (ServiceError (lit "ServiceUnavailable"))
      (lit "503 failed to connect to all addresses") None.

Definition client : SecretManagerServiceClient unit :=
  {| secret_version_path := fun p n v s => (Ok (InMemory.path p n v), s);
     add_secret_version_with_rotation := fun _ _ _ s => (Raise error, s);
     access_secret_version := fun _ s => (Raise error, s) |}.

End Unavailable.

(** A world to run examples in: a fixed sequence of octets as random
    source, a clock standing at 1700000000.5 s. *)
Module Sample.

Definition octet (i : nat) : Byte.byte :=
  match Byte.of_N (N.of_nat (37 * i + 11) mod 256) with
  | Some b => b
  | None => Byte.x00
  end.

Definition now : Float.float := Float.dyadic 3400000001 1.

Definition world {S} (s : S) : World S :=
  mkWorld octet 0 (fun _ => now) 0 s [] [].

(** The key [generate_private_key] returns in [world]. *)
Definition key : str :=
  lit "0b30557a9fc4e90e33587da2c7ec11365b80a5caef14395e83a8cdf2173c6186".

Definition wallet_path : str :=
  InMemory.path (lit "p1") (lit "wallet-a") (lit "latest").

(** A store holding the text [00ff] in wire format. *)
Definition text_store : InMemory.state :=
  [(wallet_path,
    (InMemory.SecretPayload [Byte.x30; Byte.x30; Byte.x66; Byte.x66],
     VNone))].

(** A store holding two octets that are not UTF-8. *)
Definition binary_store : InMemory.state :=
  [(wallet_path, (InMemory.SecretPayload [Byte.xff; Byte.xfe], VNone))].

End Sample.

(** * Properties *)

(** ** Strings and octets *)

Lemma str_eqb_refl (a : str) : str_eqb a a = true.
Proof.
  induction a as [|x a IH]; simpl; [reflexivity|].
  now rewrite N.eqb_refl, IH.
Qed.

Lemma str_eqb_eq (a b : str) : str_eqb a b = true <-> a = b.
Proof.
  split; [|intros ->; apply str_eqb_refl].
  revert b; induction a as [|x a IH]; intros [|y b]; simpl; try easy.
  intros H; apply andb_prop in H as [Hx Hab].
  apply N.eqb_eq in Hx; f_equal; auto.
Qed.

Lemma Ok_inj {A} (a b : A) : Ok a = Ok b -> a = b.
Proof. intros H. now inversion H. Qed.

Module HexFacts.
Import Hex.

Lemma digit_lower_hex (n : N) : (n < 16)%N -> is_lower_hex (digit n) = true.
Proof.
  intros Hn; unfold digit, is_lower_hex.
  destruct (N.ltb_spec n 10).
  - replace ((48 <=? 48 + n)%N) with true by (symmetry; apply N.leb_le; lia).
    replace ((48 + n <=? 57)%N) with true by (symmetry; apply N.leb_le; lia).
    reflexivity.
  - replace ((97 <=? 87 + n)%N) with true by (symmetry; apply N.leb_le; lia).
    replace ((87 + n <=? 102)%N) with true by (symmetry; apply N.leb_le; lia).
    apply orb_true_r.
Qed.

Lemma digit_inj (m n : N) :
  (m < 16)%N -> (n < 16)%N -> digit m = digit n -> m = n.
Proof.
  unfold digit; intros Hm Hn.
  destruct (N.ltb_spec m 10), (N.ltb_spec n 10); lia.
Qed.

Lemma nibbles (b : Byte.byte) :
  (Byte.to_N b / 16 < 16)%N /\ (Byte.to_N b mod 16 < 16)%N.
Proof.
  pose proof (Byte.to_N_bounded b) as Hb; split.
  - apply N.Div0.div_lt_upper_bound; lia.
  - apply N.mod_lt; lia.
Qed.

Lemma to_N_inj (a b : Byte.byte) : Byte.to_N a = Byte.to_N b -> a = b.
Proof.
  intros H.
  pose proof (Byte.of_to_N a) as Ha; pose proof (Byte.of_to_N b) as Hb.
  rewrite H in Ha; congruence.
Qed.

Lemma of_byte_inj (a b : Byte.byte) : of_byte a = of_byte b -> a = b.
Proof.
  unfold of_byte; intros H; injection H as Hhi Hlo.
  destruct (nibbles a) as [Ha1 Ha2], (nibbles b) as [Hb1 Hb2].
  apply digit_inj in Hhi; [|assumption..].
  apply digit_inj in Hlo; [|assumption..].
  apply to_N_inj.
  rewrite (N.div_mod (Byte.to_N a) 16), (N.div_mod (Byte.to_N b) 16) by lia.
  now rewrite Hhi, Hlo.
Qed.

Lemma hex_length (b : bytes) :
  List.length (hex b) = 2 * List.length b.
Proof. induction b as [|x b IH]; simpl; [reflexivity|rewrite IH; lia]. Qed.

Lemma hex_lower (b : bytes) : forallb is_lower_hex (hex b) = true.
Proof.
  induction b as [|x b IH]; simpl; [reflexivity|].
  destruct (nibbles x) as [H1 H2].
  now rewrite !digit_lower_hex, IH.
Qed.

Lemma hex_inj (a b : bytes) : hex a = hex b -> a = b.
Proof.
  revert b; induction a as [|x a IH]; intros [|y b]; simpl; try easy.
  intros H; injection H as H1 H2 H3.
  f_equal; [apply of_byte_inj; unfold of_byte; congruence | auto].
Qed.

End HexFacts.

(** ** Key generation *)

(** C2: every call of [generate_private_key] returns; the key is the
    lowercase hexadecimal form of the 32 octets drawn next from the random
    source, hence 64 characters long, each of them in [0-9a-f]. *)
Theorem generate_private_key_hex64 {S} (w : World S) :
  exists k,
    generate_private_key w
    = (Ok k,
       mkWorld (entropy w) (drawn w + 32) (clock w) (ticks w)
               (service w) (calls w) (log w))
    /\ k = Hex.hex (next_octets 32 w)
    /\ List.length (next_octets 32 w) = 32
    /\ List.length k = 64
    /\ forallb Hex.is_lower_hex k = true.
Proof.
  exists (Hex.hex (next_octets 32 w)).
  assert (Hlen : List.length (next_octets 32 w) = 32).
  { unfold next_octets. now rewrite length_map, length_seq. }
  split; [reflexivity|]. split; [reflexivity|]. split; [exact Hlen|].
  split.
  - rewrite HexFacts.hex_length, Hlen. reflexivity.
  - apply HexFacts.hex_lower.
Qed.

(** C8: two calls of [generate_private_key] whose draws from the random
    source differ return different keys. *)
Theorem generate_private_key_distinct {S1 S2}
        (w1 : World S1) (w2 : World S2) :
  next_octets 32 w1 <> next_octets 32 w2 ->
  fst (generate_private_key w1) <> fst (generate_private_key w2).
Proof.
  intros Hdraw Hkey. apply Hdraw.
  unfold generate_private_key, token_hex, token_bytes, bind, ret in Hkey.
  cbn [fst] in Hkey. apply Ok_inj in Hkey.
  now apply HexFacts.hex_inj.
Qed.

Lemma generate_private_key_distinct_witness :
  (next_octets 32 (Sample.world tt)
   = next_octets 32 (snd (generate_private_key (Sample.world tt))) -> False)
  /\ (fst (generate_private_key (Sample.world tt))
      = fst (generate_private_key
               (snd (generate_private_key (Sample.world tt)))) -> False).
Proof.
  assert (H : next_octets 32 (Sample.world tt)
              <> next_octets 32 (snd (generate_private_key (Sample.world tt))))
    by (vm_compute; discriminate).
  split; [exact H | exact (generate_private_key_distinct H)].
Defined.

(** The second of two calls in a row draws the octets after those of the
    first. *)
Lemma generate_private_key_advances {S} (w : World S) :
  next_octets 32 (snd (generate_private_key w))
  = List.map (entropy w) (List.seq (drawn w + 32) 32).
Proof. reflexivity. Qed.

(** ** Rotation is refused *)

(** C3: for every argument, [rotate_private_key] raises the fixed
    [NotImplementedError] at once; the world it returns is the one it was
    given, so no client operation was invoked and the remote state is
    untouched. *)
Theorem rotate_private_key_refuses {S}
        (client : SecretManagerServiceClient S) (name : str) (w : World S) :
  rotate_private_key client name w
  = (Raise (Exn NotImplementedError
                (lit "No use case found for rotating private keys (using this for crypto wallets is a bad idea)")
                None), w)
  /\ calls (snd (rotate_private_key client name w)) = calls w
  /\ service (snd (rotate_private_key client name w)) = service w.
Proof. repeat split. Qed.

(** ** Generate and store *)

(** The world after a key was drawn. *)
Lemma generate_private_key_world {S} (w : World S) :
  snd (generate_private_key w)
  = mkWorld (entropy w) (drawn w + 32) (clock w) (ticks w)
            (service w) (calls w) (log w).
Proof. reflexivity. Qed.

(** C5 (the code at every input): [generate_and_store_private_key] passes
    two positional arguments where [store_private_key] requires three, so
    the call fails while the arguments are bound: a [TypeError] is raised,
    the body of [store_private_key] never runs, no client operation is
    invoked, nothing is stored and no key is returned. *)
Theorem generate_and_store_private_key_never_stores {S}
        (client : SecretManagerServiceClient S) (user : str) (w : World S) :
  generate_and_store_private_key client user w
  = (Raise (missing_arguments (lit "SecretManager.store_private_key")
                              store_private_key_required 2),
     snd (generate_private_key w))
  /\ exn_msg (missing_arguments (lit "SecretManager.store_private_key")
                                store_private_key_required 2)
     = lit "SecretManager.store_private_key() missing 1 required positional argument: 'private_key'"
  /\ calls (snd (generate_and_store_private_key client user w)) = calls w
  /\ service (snd (generate_and_store_private_key client user w)) = service w.
Proof. repeat split. Qed.

(** C6 (the code at every input): the store step of
    [generate_and_store_private_key] always fails, with the [TypeError] of
    the argument binding; that exception reaches the caller as it is and no
    key is returned, but it is not the [RuntimeError] in which
    [store_private_key] reports a failed write. *)
Theorem generate_and_store_private_key_error_kind {S}
        (client : SecretManagerServiceClient S) (user : str) (w : World S) :
  exists k w1 e w2,
    generate_private_key w = (Ok k, w1)
    /\ store_private_key_call client (args2 user k) w1 = (Raise e, w2)
    /\ generate_and_store_private_key client user w = (Raise e, w2)
    /\ exn_cls e = TypeError
    /\ forall cause, e <> StoreFailure cause.
Proof.
  eexists _, _, _, _. split; [reflexivity|].
  split; [reflexivity|]. split; [reflexivity|]. split; [reflexivity|].
  intros cause H. discriminate H.
Qed.

(** ** The two handlers *)

Ltac unfold_methods :=
  unfold store_private_key, store_private_key_try, store_private_key_except,
    get_private_key, get_private_key_try, get_private_key_fetch,
    get_private_key_except, try_except, bind, ret, raise_from, raise, eval,
    invoke, time_time, LOG_error, LOG_exception in *.

Ltac simpl_world :=
  cbn [fst snd entropy drawn clock ticks service calls log surfaced] in *.

Lemma StoreFailure_not_ReadFailure (e1 e2 : exn) :
  StoreFailure e1 <> ReadFailure e2.
Proof.
  unfold StoreFailure, ReadFailure. intros H.
  injection H as Hmsg _. cbn in Hmsg. discriminate Hmsg.
Qed.

(** What the write path returns, from what its [try] block returns. *)
Lemma store_private_key_surfaces {S}
      (client : SecretManagerServiceClient S)
      (project name private_key version : str) (rotation_time : Z)
      (w : World S) :
  fst (store_private_key client project name private_key version
                         rotation_time w)
  = surfaced StoreFailure
      (fst (store_private_key_try client project name private_key version
                                  rotation_time w)).
Proof.
  unfold store_private_key, try_except.
  destruct (store_private_key_try _ _ _ _ _ _ w) as [[[]|e] w'];
    reflexivity.
Qed.

(** What the read path returns, from what its [try] block returns. *)
Lemma get_private_key_surfaces {S}
      (client : SecretManagerServiceClient S)
      (project name version : str) (w : World S) :
  fst (get_private_key client project name version w)
  = surfaced ReadFailure
      (fst (get_private_key_try client project name version w)).
Proof.
  unfold get_private_key, get_private_key_try, try_except, bind, invoke.
  destruct (secret_version_path client project name version (service w))
    as [[secret|e] s1]; [|reflexivity].
  match goal with
  | |- context [get_private_key_fetch client secret ?w1] =>
      destruct (get_private_key_fetch client secret w1) as [[k|e] w2]
  end; reflexivity.
Qed.

(** C4: whatever exception ends the [try] block of [store_private_key]
    reaches the caller as [StoreFailure] of it, whatever exception ends the
    [try] block of [get_private_key] as [ReadFailure] of it; no exception
    is both, and the cause can be read back from either. *)
Theorem failures_surface_by_path {S} (client : SecretManagerServiceClient S) :
  (forall project name private_key version rotation_time (w : World S),
      fst (store_private_key client project name private_key version
                             rotation_time w)
      = surfaced StoreFailure
          (fst (store_private_key_try client project name private_key
                                      version rotation_time w)))
  /\ (forall project name version (w : World S),
         fst (get_private_key client project name version w)
         = surfaced ReadFailure
             (fst (get_private_key_try client project name version w)))
  /\ (forall e1 e2, StoreFailure e1 <> ReadFailure e2)
  /\ (forall e, exn_cause (StoreFailure e) = Some e
                /\ exn_cause (ReadFailure e) = Some e)
  /\ (forall e, exn_cls (StoreFailure e) = RuntimeError
                /\ exn_cls (ReadFailure e) = RuntimeError).
Proof.
  split; [intros; apply store_private_key_surfaces|].
  split; [intros; apply get_private_key_surfaces|].
  split; [exact StoreFailure_not_ReadFailure|].
  split; intros e; split; reflexivity.
Qed.

(** Both kinds at work against a service that cannot be reached. *)
Example unavailable_store_and_get :
  fst (store_private_key Unavailable.client (lit "p1") (lit "wallet-a")
                         (lit "00ff") default_version default_rotation_time
                         (Sample.world tt))
  = Raise (StoreFailure Unavailable.error)
  /\ fst (get_private_key Unavailable.client (lit "p1") (lit "wallet-a")
                          default_get_version (Sample.world tt))
     = Raise (ReadFailure Unavailable.error).
Proof. split; reflexivity. Qed.

(** ** What the two paths do, step by step *)

(** A run of [store_private_key], by the outcome of each step of its [try]
    block: the result, the client operations it added and the remote state. *)
Lemma store_private_key_steps {S}
      (client : SecretManagerServiceClient S)
      (project name private_key version : str) (rotation_time : Z)
      (w : World S) :
  let run := store_private_key client project name private_key version
                               rotation_time w in
  let path_call := secret_version_path_call project name version in
  match secret_version_path client project name version (service w) with
  | (Raise e, s1) =>
      fst run = Raise (StoreFailure e)
      /\ calls (snd run) = calls w ++ [mkEvent path_call (Some e)]
      /\ service (snd run) = s1
  | (Ok secret, s1) =>
      match next_rotation_seconds (clock w (ticks w)) rotation_time with
      | Raise e =>
          fst run = Raise (StoreFailure e)
          /\ calls (snd run) = calls w ++ [mkEvent path_call None]
          /\ service (snd run) = s1
      | Ok seconds =>
          let add_call :=
            add_secret_version_with_rotation_call
              secret (key_payload private_key) (schedule_at seconds) in
          match add_secret_version_with_rotation
                  client secret (key_payload private_key)
                  (schedule_at seconds) s1 with
          | (Ok _, s2) =>
              fst run = Ok tt
              /\ calls (snd run)
                 = calls w ++ [mkEvent path_call None; mkEvent add_call None]
              /\ service (snd run) = s2
          | (Raise e, s2) =>
              fst run = Raise (StoreFailure e)
              /\ calls (snd run)
                 = calls w
                     ++ [mkEvent path_call None; mkEvent add_call (Some e)]
              /\ service (snd run) = s2
          end
      end
  end.
Proof.
  cbv zeta. unfold next_rotation_seconds, key_payload, schedule_at.
  unfold_methods.
  destruct (secret_version_path client project name version (service w))
    as [[secret|e] s1]; simpl_world.
  2:{ repeat split. }
  destruct (Float.add_int (clock w (ticks w)) rotation_time) as [sum|e];
    simpl_world.
  2:{ repeat split. }
  destruct (Float.to_int sum) as [seconds|e]; simpl_world.
  2:{ repeat split. }
  destruct (add_secret_version_with_rotation client secret _ _ s1)
    as [[v|e] s2]; simpl_world.
  - repeat split. now rewrite <- app_assoc.
  - repeat split. now rewrite <- app_assoc.
Qed.

(** A run of [get_private_key], likewise. *)
Lemma get_private_key_steps {S}
      (client : SecretManagerServiceClient S)
      (project name version : str) (w : World S) :
  let run := get_private_key client project name version w in
  let path_call := secret_version_path_call project name version in
  match secret_version_path client project name version (service w) with
  | (Raise e, s1) =>
      fst run = Raise (ReadFailure e)
      /\ calls (snd run) = calls w ++ [mkEvent path_call (Some e)]
      /\ service (snd run) = s1
  | (Ok secret, s1) =>
      match access_secret_version client secret s1 with
      | (Raise e, s2) =>
          fst run = Raise (ReadFailure e)
          /\ calls (snd run)
             = calls w ++ [mkEvent path_call None;
                           mkEvent (access_secret_version_call secret) (Some e)]
          /\ service (snd run) = s2
      | (Ok response, s2) =>
          fst run = surfaced ReadFailure (read_payload response)
          /\ calls (snd run)
             = calls w ++ [mkEvent path_call None;
                           mkEvent (access_secret_version_call secret) None]
          /\ service (snd run) = s2
      end
  end.
Proof.
  cbv zeta. unfold read_payload. unfold_methods.
  destruct (secret_version_path client project name version (service w))
    as [[secret|e] s1]; simpl_world.
  2:{ repeat split. }
  destruct (access_secret_version client secret s1) as [[response|e] s2];
    simpl_world.
  2:{ repeat split. now rewrite <- app_assoc. }
  destruct (getattr response (lit "payload")) as [pl|e]; simpl_world.
  2:{ repeat split. now rewrite <- app_assoc. }
  destruct (getattr pl (lit "data")) as [data|e]; simpl_world.
  2:{ repeat split. now rewrite <- app_assoc. }
  destruct (py_decode data) as [k|e]; simpl_world;
    repeat split; now rewrite <- app_assoc.
Qed.

(** ** Payload written under [key], read under [data] *)


(** A response that hands back the mapping [store_private_key] submitted
    cannot be read: the mapping has no [data]. *)
Lemma read_payload_of_submitted (cls : str) (private_key : str) :
  read_payload (VObj cls [(lit "payload", key_payload private_key)])
  = Raise (Exn AttributeError
               (lit "'dict' object has no attribute 'data'") None).
Proof. reflexivity. Qed.

(** A response in wire format is read by decoding its [data]. *)
Lemma read_payload_of_wire (cls cls' : str) (b : bytes) :
  read_payload (VObj cls [(lit "payload", VObj cls' [(lit "data", VBytes b)])])
  = py_decode (VBytes b).
Proof. reflexivity. Qed.



(** ** Round trip against the in-memory store *)

Lemma latest_app_last (name : str) (s : InMemory.state)
      (payload schedule : pyval) :
  InMemory.latest name (s ++ [(name, (payload, schedule))]) = Some payload.
Proof.
  induction s as [|[n [p sch]] s IH]; simpl.
  - now rewrite str_eqb_refl.
  - now rewrite IH.
Qed.

(** C1 (the code against a store that hands payloads back as submitted):
    whenever [store_private_key] succeeds, the following [get_private_key]
    for the same project, name and version raises [ReadFailure]: the stored
    mapping has the key under [key], the read looks under [data]. *)
Theorem store_then_get_loses_key
        (project name private_key version : str) (rotation_time : Z)
        (w : World InMemory.state) :
  fst (store_private_key InMemory.client project name private_key version
                         rotation_time w) = Ok tt ->
  fst (get_private_key InMemory.client project name version
         (snd (store_private_key InMemory.client project name private_key
                                 version rotation_time w)))
  = Raise (ReadFailure
             (Exn AttributeError
                  (lit "'dict' object has no attribute 'data'") None)).
Proof.
  intros Hstored.
  pose proof (store_private_key_steps InMemory.client project name private_key
                                      version rotation_time w) as Hs.
  cbv zeta in Hs. cbn [secret_version_path InMemory.client] in Hs.
  destruct (next_rotation_seconds (clock w (ticks w)) rotation_time)
    as [seconds|e].
  2:{ destruct Hs as (Hs & _). rewrite Hs in Hstored. discriminate. }
  cbn [add_secret_version_with_rotation InMemory.client] in Hs.
  destruct Hs as (_ & _ & Hservice).
  pose proof (get_private_key_steps InMemory.client project name version
                (snd (store_private_key InMemory.client project name
                        private_key version rotation_time w))) as Hg.
  cbv zeta in Hg.
  cbn [secret_version_path access_secret_version InMemory.client] in Hg.
  rewrite Hservice, latest_app_last in Hg.
  destruct Hg as (-> & _). reflexivity.
Qed.

Lemma store_then_get_loses_key_witness :
  fst (store_private_key InMemory.client (lit "p1") (lit "wallet-a")
                         Sample.key default_version default_rotation_time
                         (Sample.world [])) = Ok tt
  /\ fst (get_private_key InMemory.client (lit "p1") (lit "wallet-a")
            default_get_version
            (snd (store_private_key InMemory.client (lit "p1")
                    (lit "wallet-a") Sample.key default_version
                    default_rotation_time (Sample.world []))))
     = Raise (ReadFailure
                (Exn AttributeError
                     (lit "'dict' object has no attribute 'data'") None)).
Proof.
  split; [reflexivity|].
  exact (@store_then_get_loses_key (lit "p1") (lit "wallet-a") Sample.key
           default_version default_rotation_time (Sample.world []) eq_refl).
Defined.

Example sample_key_generated :
  fst (generate_private_key (Sample.world tt)) = Ok Sample.key.
Proof. reflexivity. Qed.

(** ** No local validation; where failures come from *)

(** C10 as stated fails: [get_private_key] can fail although every client
    operation returned.  On a secret whose octets are not UTF-8 both client
    calls succeed, and the failure that reaches the caller wraps a
    [UnicodeDecodeError] raised locally by the decoding inside the [try]
    block. *)
Lemma failures_without_client_failure :
  exists cause,
    fst (get_private_key InMemory.client (lit "p1") (lit "wallet-a")
                         default_get_version
                         (Sample.world Sample.binary_store))
    = Raise (ReadFailure cause)
    /\ exn_cls cause = UnicodeDecodeError
    /\ exn_cause cause = None
    /\ client_failures
         (calls (snd (get_private_key InMemory.client (lit "p1")
                        (lit "wallet-a") default_get_version
                        (Sample.world Sample.binary_store)))) = [].
Proof.
  exists (Exn UnicodeDecodeError (Utf8.message [Byte.xff; Byte.xfe]) None).
  repeat split.
Qed.

(** C10, amended: neither path checks its arguments: for every input the
    first thing done is the client's [secret_version_path] on the arguments
    as given, and a failure reaches the caller only wrapped around its
    cause.  The cause is the exception of the one client operation that
    failed, or, when all of them returned, an exception raised locally
    afterwards: by [int(time.time() + rotation_time)] on the write path, by
    reading and decoding [response.payload.data] on the read path. *)
Theorem no_local_validation {S} (client : SecretManagerServiceClient S) :
  (forall project name private_key version rotation_time (w : World S),
      exists first rest,
        calls (snd (store_private_key client project name private_key
                                      version rotation_time w))
        = calls w ++ first :: rest
        /\ invoked first = secret_version_path_call project name version
        /\ (fst (store_private_key client project name private_key
                                   version rotation_time w) = Ok tt
            \/ exists cause,
                fst (store_private_key client project name private_key
                                       version rotation_time w)
                = Raise (StoreFailure cause)
                /\ (client_failures (first :: rest) = [cause]
                    \/ (client_failures (first :: rest) = []
                        /\ next_rotation_seconds (clock w (ticks w))
                                                 rotation_time
                           = Raise cause))))
  /\ (forall project name version (w : World S),
         exists first rest,
           calls (snd (get_private_key client project name version w))
           = calls w ++ first :: rest
           /\ invoked first = secret_version_path_call project name version
           /\ ((exists k,
                   fst (get_private_key client project name version w) = Ok k)
               \/ exists cause,
                   fst (get_private_key client project name version w)
                   = Raise (ReadFailure cause)
                   /\ (client_failures (first :: rest) = [cause]
                       \/ (client_failures (first :: rest) = []
                           /\ exists secret s1 response s2,
                               secret_version_path client project name
                                                   version (service w)
                               = (Ok secret, s1)
                               /\ access_secret_version client secret s1
                                  = (Ok response, s2)
                               /\ read_payload response = Raise cause)))).
Proof.
  split.
  - intros project name private_key version rotation_time w.
    pose proof (store_private_key_steps client project name private_key
                                        version rotation_time w) as H.
    cbv zeta in H.
    destruct (secret_version_path client project name version (service w))
      as [[secret|e] s1].
    2:{ destruct H as (Hr & Hc & _). eexists _, _.
        split; [exact Hc|]. split; [reflexivity|].
        right. exists e. split; [exact Hr|]. now left. }
    destruct (next_rotation_seconds (clock w (ticks w)) rotation_time)
      as [seconds|e].
    2:{ destruct H as (Hr & Hc & _). eexists _, _.
        split; [exact Hc|]. split; [reflexivity|].
        right. exists e. split; [exact Hr|]. right. now split. }
    destruct (add_secret_version_with_rotation client secret _ _ s1)
      as [[v|e] s2]; destruct H as (Hr & Hc & _); eexists _, _;
      (split; [exact Hc|]); (split; [reflexivity|]).
    + now left.
    + right. exists e. split; [exact Hr|]. now left.
  - intros project name version w.
    pose proof (get_private_key_steps client project name version w) as H.
    cbv zeta in H.
    destruct (secret_version_path client project name version (service w))
      as [[secret|e] s1] eqn:Hpath.
    2:{ destruct H as (Hr & Hc & _). eexists _, _.
        split; [exact Hc|]. split; [reflexivity|].
        right. exists e. split; [exact Hr|]. now left. }
    destruct (access_secret_version client secret s1)
      as [[response|e] s2] eqn:Hacc.
    2:{ destruct H as (Hr & Hc & _). eexists _, _.
        split; [exact Hc|]. split; [reflexivity|].
        right. exists e. split; [exact Hr|]. now left. }
    destruct H as (Hr & Hc & _). eexists _, _.
    split; [exact Hc|]. split; [reflexivity|].
    destruct (read_payload response) as [k|e] eqn:Hread.
    + left. now exists k.
    + right. exists e. split; [exact Hr|]. right. split; [reflexivity|].
      now exists secret, s1, response, s2.
Qed.

(** ** Binary64 sums that are exact *)

Module FloatFacts.
Import Float.

Local Open Scope Z_scope.

Lemma digits2_pos_size (p : positive) : digits2_pos p = Pos.size p.
Proof. induction p; simpl; congruence. Qed.

Lemma digits2_pos_log2 (p : positive) :
  Zpos (digits2_pos p) = Z.log2 (Zpos p) + 1.
Proof.
  rewrite digits2_pos_size.
  destruct p; simpl; try reflexivity; now rewrite Pos2Z.inj_succ.
Qed.


Lemma iter_pos_nat {A} (f : A -> A) (n : positive) (x : A) :
  iter_pos f n x = Nat.iter (Pos.to_nat n) f x.
Proof.
  revert x; induction n as [n IH|n IH|]; intros x; cbn [iter_pos].
  - rewrite !IH, Pos2Nat.inj_xI, <- Nat.iter_add, <- Nat.iter_succ_r.
    f_equal; lia.
  - rewrite !IH, Pos2Nat.inj_xO, <- Nat.iter_add.
    f_equal; lia.
  - reflexivity.
Qed.






Section Canonical.
Variables t f : Z.
Hypothesis t_range : 0 < t < 2 ^ 53.
Hypothesis f_range : 0 <= f <= 1022.







End Canonical.





End FloatFacts.

(** ** Defaults and rotation schedule *)



(** ** Logging *)

(** The name [get_private_key] shows in its log record: the parameter
    [name] holds the resource name once [secret_version_path] returned. *)
Lemma get_private_key_logged_name {S}
      (client : SecretManagerServiceClient S)
      (project name version : str) (w : World S) :
  match get_private_key_try client project name version w with
  | (Raise e, _) =>
      log (snd (get_private_key client project name version w))
      = log w
          ++ [LogError
                (lit "Failed to retrieve private key for "
                     ++ match secret_version_path client project name version
                                                  (service w) with
                        | (Ok secret, _) => secret
                        | (Raise _, _) => name
                        end
                     ++ lit ": " ++ exn_msg e);
              LogException e]
  | (Ok _, _) =>
      log (snd (get_private_key client project name version w)) = log w
  end.
Proof.
  unfold_methods.
  destruct (secret_version_path client project name version (service w))
    as [[secret|e] s1]; simpl_world.
  2:{ now rewrite <- app_assoc. }
  destruct (access_secret_version client secret s1) as [[response|e] s2];
    simpl_world.
  2:{ now rewrite <- app_assoc. }
  destruct (getattr response (lit "payload")) as [pl|e]; simpl_world.
  2:{ now rewrite <- app_assoc. }
  destruct (getattr pl (lit "data")) as [data|e]; simpl_world.
  2:{ now rewrite <- app_assoc. }
  destruct (py_decode data) as [k|e]; simpl_world;
    [reflexivity | now rewrite <- app_assoc].
Qed.

(** Every failure of [store_private_key] is logged before it is surfaced,
    once as an error line naming the secret and the cause, once as the
    exception itself; a run that succeeds logs nothing. *)
Theorem store_private_key_logs_failures {S}
        (client : SecretManagerServiceClient S)
        (project name private_key version : str) (rotation_time : Z)
        (w : World S) :
  match store_private_key_try client project name private_key version
                              rotation_time w with
  | (Raise e, _) =>
      log (snd (store_private_key client project name private_key version
                                  rotation_time w))
      = log w
          ++ [LogError (lit "Failed to store private key for " ++ name
                            ++ lit ": " ++ exn_msg e);
              LogException e]
  | (Ok _, _) =>
      log (snd (store_private_key client project name private_key version
                                  rotation_time w)) = log w
  end.
Proof.
  unfold_methods.
  destruct (secret_version_path client project name version (service w))
    as [[secret|e] s1]; simpl_world.
  2:{ now rewrite <- app_assoc. }
  destruct (Float.add_int (clock w (ticks w)) rotation_time) as [sum|e];
    simpl_world.
  2:{ now rewrite <- app_assoc. }
  destruct (Float.to_int sum) as [seconds|e]; simpl_world.
  2:{ now rewrite <- app_assoc. }
  destruct (add_secret_version_with_rotation client secret _ _ s1)
    as [[v|e] s2]; simpl_world;
    [reflexivity | now rewrite <- app_assoc].
Qed.

(** ** What each path leaves alone *)







(** ** One locator for both paths *)



(** ** Decoding the payload *)

Module Utf8Facts.
Import Utf8.

Local Open Scope N_scope.

Lemma is_scalar_spec (c : N) :
  is_scalar c = true <-> c < 55296 \/ (57344 <= c /\ c < 1114112).
Proof.
  unfold is_scalar.
  rewrite orb_true_iff, andb_true_iff, !N.ltb_lt, N.leb_le. tauto.
Qed.

Lemma between_spec (lo b hi : N) :
  between lo b hi = true <-> lo <= b /\ b <= hi.
Proof. unfold between. now rewrite andb_true_iff, !N.leb_le. Qed.

Lemma cont_spec (b : N) : cont b = true <-> 128 <= b /\ b <= 191.
Proof. apply between_spec. Qed.

Ltac decode_hyps :=
  repeat match goal with
    | H : _ && _ = true |- _ => apply andb_prop in H; destruct H
    | H : between _ _ _ = true |- _ => apply between_spec in H
    | H : cont _ = true |- _ => apply cont_spec in H
    | H : (_ <? _) = true |- _ => apply N.ltb_lt in H
    | H : (_ <? _) = false |- _ => apply N.ltb_ge in H
    | H : (_ =? _) = true |- _ => apply N.eqb_eq in H
    | H : (_ =? _) = false |- _ => apply N.eqb_neq in H
    end.

Ltac euclid := unfold low6 in *; zify; Z.to_euclidean_division_equations; lia.

Ltac finish_step Er tac :=
  split; [reflexivity|]; split; [exact Er|];
  split; [apply is_scalar_spec; tac | simpl; lia].

(** One step of the decoder: the code point read and the octets left. *)
Lemma decode_N_step (b0 : N) (r0 : list N) (s : str) :
  decode_N (b0 :: r0) = Some s ->
  exists c r s',
    s = c :: s' /\ decode_N r = Some s' /\ is_scalar c = true
    /\ (List.length r < List.length (b0 :: r0))%nat.
Proof.
  cbn [decode_N]. intros H.
  destruct (b0 <? 128) eqn:E0.
  { destruct (decode_N r0) as [s'|] eqn:Er; [|discriminate].
    injection H as <-. exists b0, r0, s'. decode_hyps.
    finish_step Er lia. }
  destruct (between 194 b0 223) eqn:E1.
  { destruct r0 as [|b1 r1]; [discriminate|].
    destruct (cont b1) eqn:C1; [|discriminate].
    destruct (decode_N r1) as [s'|] eqn:Er; [|discriminate].
    injection H as <-. eexists _, r1, s'. decode_hyps.
    finish_step Er euclid. }
  destruct (between 224 b0 239) eqn:E2.
  { destruct r0 as [|b1 [|b2 r2]]; try discriminate.
    destruct (between _ b1 _ && cont b2) eqn:C; [|discriminate].
    destruct (decode_N r2) as [s'|] eqn:Er; [|discriminate].
    injection H as <-. eexists _, r2, s'.
    destruct (b0 =? 224) eqn:Ea, (b0 =? 237) eqn:Eb; decode_hyps;
      finish_step Er euclid. }
  destruct (between 240 b0 244) eqn:E3; [|discriminate].
  destruct r0 as [|b1 [|b2 [|b3 r3]]]; try discriminate.
  destruct (between _ b1 _ && cont b2 && cont b3) eqn:C; [|discriminate].
  destruct (decode_N r3) as [s'|] eqn:Er; [|discriminate].
  injection H as <-. eexists _, r3, s'.
  destruct (b0 =? 240) eqn:Ea, (b0 =? 244) eqn:Eb; decode_hyps;
    finish_step Er euclid.
Qed.

(** The octets one step consumes are the UTF-8 form of the code point it
    reads: one octet below U+0080, two below U+0800, three below U+10000,
    four from there on. *)
Lemma decode_N_step_octets (b0 : N) (r0 : list N) (s : str) :
  decode_N (b0 :: r0) = Some s ->
  exists c r s',
    s = c :: s' /\ decode_N r = Some s'
    /\ ((c < 128 /\ b0 :: r0 = c :: r)
        \/ (128 <= c < 2048
            /\ b0 :: r0 = (192 + c / 64) :: (128 + c mod 64) :: r)
        \/ (2048 <= c < 65536
            /\ b0 :: r0
               = (224 + c / 4096) :: (128 + (c / 64) mod 64)
                   :: (128 + c mod 64) :: r)
        \/ (65536 <= c < 1114112
            /\ b0 :: r0
               = (240 + c / 262144) :: (128 + (c / 4096) mod 64)
                   :: (128 + (c / 64) mod 64) :: (128 + c mod 64) :: r)).
Proof.
  cbn [decode_N]. intros H.
  destruct (b0 <? 128) eqn:E0.
  { destruct (decode_N r0) as [s'|] eqn:Er; [|discriminate].
    injection H as <-. exists b0, r0, s'. decode_hyps.
    split; [reflexivity|]. split; [exact Er|]. left. now split. }
  destruct (between 194 b0 223) eqn:E1.
  { destruct r0 as [|b1 r1]; [discriminate|].
    destruct (cont b1) eqn:C1; [|discriminate].
    destruct (decode_N r1) as [s'|] eqn:Er; [|discriminate].
    injection H as <-. eexists _, r1, s'. decode_hyps.
    split; [reflexivity|]. split; [exact Er|]. right; left.
    split; [euclid|]. f_equal; [euclid|]. f_equal. euclid. }
  destruct (between 224 b0 239) eqn:E2.
  { destruct r0 as [|b1 [|b2 r2]]; try discriminate.
    destruct (between _ b1 _ && cont b2) eqn:C; [|discriminate].
    destruct (decode_N r2) as [s'|] eqn:Er; [|discriminate].
    injection H as <-. eexists _, r2, s'.
    split; [reflexivity|]. split; [exact Er|]. right; right; left.
    destruct (b0 =? 224) eqn:Ea, (b0 =? 237) eqn:Eb; decode_hyps;
      (split; [euclid|]); (f_equal; [euclid|]); (f_equal; [euclid|]);
      f_equal; euclid. }
  destruct (between 240 b0 244) eqn:E3; [|discriminate].
  destruct r0 as [|b1 [|b2 [|b3 r3]]]; try discriminate.
  destruct (between _ b1 _ && cont b2 && cont b3) eqn:C; [|discriminate].
  destruct (decode_N r3) as [s'|] eqn:Er; [|discriminate].
  injection H as <-. eexists _, r3, s'.
  split; [reflexivity|]. split; [exact Er|]. right; right; right.
  destruct (b0 =? 240) eqn:Ea, (b0 =? 244) eqn:Eb; decode_hyps;
    (split; [euclid|]); (f_equal; [euclid|]); (f_equal; [euclid|]);
    (f_equal; [euclid|]); f_equal; euclid.
Qed.

(** Decoded text holds scalar values only and is no longer than its
    input. *)
Lemma decode_N_valid (bs : list N) :
  forall s, decode_N bs = Some s ->
            (List.length s <= List.length bs)%nat
            /\ forallb is_scalar s = true.
Proof.
  remember (List.length bs) as n eqn:Hn.
  revert bs Hn. induction n as [n IH] using lt_wf_ind. intros bs Hn s H.
  destruct bs as [|b0 r0].
  - injection H as <-. split; [simpl; lia | reflexivity].
  - destruct (decode_N_step _ _ H) as (c & r & s' & -> & Hr & Hc & Hlen).
    destruct (IH (List.length r) ltac:(lia) r eq_refl s' Hr) as [Hl Hs].
    split; [simpl in *; lia|]. simpl. now rewrite Hc, Hs.
Qed.

(** Decoding is one-to-one: no text is the reading of two inputs. *)
Lemma decode_N_inj (bs1 : list N) :
  forall bs2 s, decode_N bs1 = Some s -> decode_N bs2 = Some s -> bs1 = bs2.
Proof.
  remember (List.length bs1) as n eqn:Hn.
  revert bs1 Hn. induction n as [n IH] using lt_wf_ind.
  intros bs1 Hn bs2 s H1 H2.
  destruct bs1 as [|b1 r1], bs2 as [|b2 r2].
  - reflexivity.
  - injection H1 as <-.
    destruct (decode_N_step _ _ H2) as (c & r & s' & Hs & _). discriminate.
  - injection H2 as <-.
    destruct (decode_N_step _ _ H1) as (c & r & s' & Hs & _). discriminate.
  - destruct (decode_N_step _ _ H1) as (_ & ra & _ & _ & _ & _ & Hlen).
    clear ra Hlen.
    destruct (decode_N_step_octets _ _ H1) as (c & ra & sa & -> & Ha & Hca).
    destruct (decode_N_step_octets _ _ H2) as (c' & rb & sb & Hs & Hb & Hcb).
    injection Hs as <- <-.
    assert (Hrest : ra = rb).
    { apply (IH (List.length ra)) with (s := sa); try assumption;
        [|reflexivity].
      rewrite Hn.
      destruct Hca as [[_ ->]|[[_ ->]|[[_ ->]|[_ ->]]]]; simpl; lia. }
    subst rb.
    destruct Hca as [[Ra ->]|[[Ra ->]|[[Ra ->]|[Ra ->]]]];
      destruct Hcb as [[Rb ->]|[[Rb ->]|[[Rb ->]|[Rb ->]]]];
      try reflexivity; lia.
Qed.

(** ASCII octets decode to themselves. *)
Lemma decode_N_ascii (bs : list N) :
  forallb (fun b => b <? 128) bs = true -> decode_N bs = Some bs.
Proof.
  induction bs as [|b bs IH]; [reflexivity|].
  cbn [forallb decode_N]. intros H. apply andb_prop in H as [Hb Hbs].
  now rewrite Hb, IH.
Qed.

Lemma map_to_N_inj (a b : bytes) :
  List.map Byte.to_N a = List.map Byte.to_N b -> a = b.
Proof.
  revert b; induction a as [|x a IH]; intros [|y b]; simpl; try easy.
  intros H; injection H as Hx Hab.
  f_equal; [now apply HexFacts.to_N_inj | auto].
Qed.


End Utf8Facts.

(** What [get_private_key] returns once the response carries octets under
    [payload.data]. *)
Lemma get_private_key_on_octets {S}
      (client : SecretManagerServiceClient S)
      (project name version : str) (w : World S)
      (secret : str) (s1 : S) (response : pyval) (s2 : S)
      (response_payload : pyval) (b : bytes) :
  secret_version_path client project name version (service w)
  = (Ok secret, s1) ->
  access_secret_version client secret s1 = (Ok response, s2) ->
  getattr response (lit "payload") = Ok response_payload ->
  getattr response_payload (lit "data") = Ok (VBytes b) ->
  fst (get_private_key client project name version w)
  = surfaced ReadFailure (py_decode (VBytes b)).
Proof.
  intros Hpath Hacc Hpl Hdata.
  pose proof (get_private_key_steps client project name version w) as H.
  cbv zeta in H. rewrite Hpath, Hacc in H. destruct H as (-> & _).
  unfold read_payload. now rewrite Hpl, Hdata.
Qed.

Lemma forallb_ascii (b : bytes) :
  forallb (fun c => (c <? 128)%N) (List.map Byte.to_N b) = forallb is_ascii b.
Proof. induction b as [|x b IH]; simpl; [reflexivity|now rewrite IH]. Qed.

Lemma lower_hex_below_128 (s : str) :
  forallb Hex.is_lower_hex s = true ->
  forallb (fun c => (c <? 128)%N) s = true.
Proof.
  induction s as [|c s IH]; [reflexivity|]. cbn [forallb].
  intros H. apply andb_prop in H as [Hc Hs]. rewrite (IH Hs), andb_true_r.
  unfold Hex.is_lower_hex in Hc. apply N.ltb_lt.
  apply orb_prop in Hc as [Hc|Hc]; apply andb_prop in Hc as [_ Hc];
    apply N.leb_le in Hc; lia.
Qed.

(** A secret held as ASCII octets is returned as the text they spell,
    character for octet. *)
Theorem get_private_key_returns_ascii {S}
        (client : SecretManagerServiceClient S)
        (project name version : str) (w : World S)
        (secret : str) (s1 : S) (response : pyval) (s2 : S)
        (response_payload : pyval) (b : bytes) :
  secret_version_path client project name version (service w)
  = (Ok secret, s1) ->
  access_secret_version client secret s1 = (Ok response, s2) ->
  getattr response (lit "payload") = Ok response_payload ->
  getattr response_payload (lit "data") = Ok (VBytes b) ->
  forallb is_ascii b = true ->
  fst (get_private_key client project name version w)
  = Ok (List.map Byte.to_N b).
Proof.
  intros Hpath Hacc Hpl Hdata Hascii.
  rewrite (get_private_key_on_octets _ _ _ _ _ Hpath Hacc Hpl Hdata).
  unfold py_decode, Utf8.decode.
  rewrite Utf8Facts.decode_N_ascii; [reflexivity|].
  rewrite forallb_ascii. exact Hascii.
Qed.

Lemma get_private_key_returns_ascii_witness :
  forallb is_ascii [Byte.x30; Byte.x30; Byte.x66; Byte.x66] = true
  /\ fst (get_private_key InMemory.client (lit "p1") (lit "wallet-a")
                          default_get_version
                          (Sample.world Sample.text_store))
     = Ok (lit "00ff").
Proof.
  split; [reflexivity|].
  exact (@get_private_key_returns_ascii
           _ InMemory.client (lit "p1") (lit "wallet-a") default_get_version
           (Sample.world Sample.text_store) Sample.wallet_path
           Sample.text_store _ Sample.text_store _
           [Byte.x30; Byte.x30; Byte.x66; Byte.x66]
           eq_refl eq_refl eq_refl eq_refl eq_refl).
Defined.

(** A key in the format of [generate_private_key], held by the store as
    the octets that spell it, is returned exactly. *)
Theorem get_private_key_returns_generated_key {S}
        (client : SecretManagerServiceClient S)
        (project name version : str) (w : World S)
        (secret : str) (s1 : S) (response : pyval) (s2 : S)
        (response_payload : pyval) (b drawn_octets : bytes) :
  secret_version_path client project name version (service w)
  = (Ok secret, s1) ->
  access_secret_version client secret s1 = (Ok response, s2) ->
  getattr response (lit "payload") = Ok response_payload ->
  getattr response_payload (lit "data") = Ok (VBytes b) ->
  List.map Byte.to_N b = Hex.hex drawn_octets ->
  fst (get_private_key client project name version w)
  = Ok (Hex.hex drawn_octets).
Proof.
  intros Hpath Hacc Hpl Hdata Hspell.
  rewrite (get_private_key_on_octets _ _ _ _ _ Hpath Hacc Hpl Hdata).
  unfold py_decode, Utf8.decode. rewrite Hspell.
  rewrite Utf8Facts.decode_N_ascii; [reflexivity|].
  apply lower_hex_below_128, HexFacts.hex_lower.
Qed.

Lemma get_private_key_returns_generated_key_witness :
  List.map Byte.to_N [Byte.x30; Byte.x30; Byte.x66; Byte.x66]
  = Hex.hex [Byte.x00; Byte.xff]
  /\ fst (get_private_key InMemory.client (lit "p1") (lit "wallet-a")
                          default_get_version
                          (Sample.world Sample.text_store))
     = Ok (Hex.hex [Byte.x00; Byte.xff]).
Proof.
  split; [reflexivity|].
  exact (@get_private_key_returns_generated_key
           _ InMemory.client (lit "p1") (lit "wallet-a") default_get_version
           (Sample.world Sample.text_store) Sample.wallet_path
           Sample.text_store _ Sample.text_store _
           [Byte.x30; Byte.x30; Byte.x66; Byte.x66] [Byte.x00; Byte.xff]
           eq_refl eq_refl eq_refl eq_refl eq_refl).
Defined.

(** Whatever [get_private_key] returns is made of Unicode scalar values
    (no surrogates, nothing above U+10FFFF) and has at most one character
    per octet of the payload. *)
Theorem get_private_key_returns_scalars {S}
        (client : SecretManagerServiceClient S)
        (project name version : str) (w : World S)
        (secret : str) (s1 : S) (response : pyval) (s2 : S)
        (response_payload : pyval) (b : bytes) (k : str) :
  secret_version_path client project name version (service w)
  = (Ok secret, s1) ->
  access_secret_version client secret s1 = (Ok response, s2) ->
  getattr response (lit "payload") = Ok response_payload ->
  getattr response_payload (lit "data") = Ok (VBytes b) ->
  fst (get_private_key client project name version w) = Ok k ->
  List.length k <= List.length b /\ forallb is_scalar k = true.
Proof.
  intros Hpath Hacc Hpl Hdata Hk.
  rewrite (get_private_key_on_octets _ _ _ _ _ Hpath Hacc Hpl Hdata) in Hk.
  unfold py_decode, Utf8.decode in Hk.
  destruct (Utf8.decode_N (List.map Byte.to_N b)) as [s|] eqn:Hdec;
    [|discriminate].
  apply Ok_inj in Hk. subst s.
  destruct (Utf8Facts.decode_N_valid _ Hdec) as [Hlen Hs].
  now rewrite length_map in Hlen.
Qed.

Lemma get_private_key_returns_scalars_witness :
  List.length (lit "00ff") <= 4 /\ forallb is_scalar (lit "00ff") = true.
Proof.
  exact (@get_private_key_returns_scalars
           _ InMemory.client (lit "p1") (lit "wallet-a") default_get_version
           (Sample.world Sample.text_store) Sample.wallet_path
           Sample.text_store _ Sample.text_store _
           [Byte.x30; Byte.x30; Byte.x66; Byte.x66] (lit "00ff")
           eq_refl eq_refl eq_refl eq_refl eq_refl).
Defined.



(** Reading is one-to-one: two payloads that decode to the same text are
    the same octets. *)
Theorem payload_decoding_one_to_one (b1 b2 : bytes) (s : str) :
  py_decode (VBytes b1) = Ok s -> py_decode (VBytes b2) = Ok s -> b1 = b2.
Proof.
  unfold py_decode, Utf8.decode. intros H1 H2.
  destruct (Utf8.decode_N (List.map Byte.to_N b1)) as [t1|] eqn:D1;
    [|discriminate].
  destruct (Utf8.decode_N (List.map Byte.to_N b2)) as [t2|] eqn:D2;
    [|discriminate].
  apply Ok_inj in H1, H2. subst t1 t2.
  apply Utf8Facts.map_to_N_inj. exact (Utf8Facts.decode_N_inj _ _ D1 D2).
Qed.

Lemma payload_decoding_one_to_one_witness :
  py_decode (VBytes [Byte.xe2; Byte.x82; Byte.xac]) = Ok [8364%N]
  /\ [Byte.xe2; Byte.x82; Byte.xac] = [Byte.xe2; Byte.x82; Byte.xac].
Proof.
  split; [reflexivity|].
  exact (@payload_decoding_one_to_one
           [Byte.xe2; Byte.x82; Byte.xac] [Byte.xe2; Byte.x82; Byte.xac]
           [8364%N] eq_refl eq_refl).
Defined.

(** ** Rotation times a float cannot hold *)

Module OverflowFacts.
Import Float.

Local Open Scope Z_scope.

Lemma shr_1_m (mrs : shr_record) :
  0 <= shr_m mrs -> shr_m (shr_1 mrs) = shr_m mrs / 2.
Proof.
  destruct mrs as [m r s]. cbn [shr_m]. intros Hm.
  destruct m as [|[p|p|]|p]; cbn [shr_1 shr_m]; try lia.
  - reflexivity.
  - rewrite Pos2Z.inj_xI. apply Z.div_unique with (r := 1); lia.
  - rewrite Pos2Z.inj_xO. apply Z.div_unique with (r := 0); lia.
  - reflexivity.
Qed.

Lemma shr_iter_m (n : nat) (mrs : shr_record) :
  0 <= shr_m mrs ->
  shr_m (Nat.iter n shr_1 mrs) = shr_m mrs / 2 ^ Z.of_nat n.
Proof.
  intros Hm. induction n as [|n IH].
  - simpl. now rewrite Z.div_1_r.
  - change (Nat.iter (S n) shr_1 mrs) with (shr_1 (Nat.iter n shr_1 mrs)).
    rewrite shr_1_m, IH.
    + rewrite Nat2Z.inj_succ, Z.pow_succ_r by lia.
      rewrite Z.div_div by lia. f_equal. lia.
    + rewrite IH. apply Z.div_pos; lia.
Qed.

Lemma shr_pos_m (j : positive) (m : Z) (r s : bool) :
  0 <= m ->
  shr_m (iter_pos shr_1 j {| shr_m := m; shr_r := r; shr_s := s |})
  = m / 2 ^ Zpos j.
Proof.
  intros Hm. rewrite FloatFacts.iter_pos_nat, shr_iter_m by exact Hm.
  cbn [shr_m]. now rewrite positive_nat_Z.
Qed.

Lemma round_nearest_even_range (m : Z) (l : location) :
  m <= round_nearest_even m l <= m + 1.
Proof.
  destruct l as [|[| |]]; cbn [round_nearest_even];
    try destruct (Z.even m); lia.
Qed.

(** An integer of 1025 binary digits or more rounds to infinity. *)
Lemma binary_round_overflow (p : positive) :
  2 ^ 1024 <= Zpos p -> binary_round prec emax false p 0 = S754_infinity false.
Proof.
  intros Hp.
  assert (Hd : 1025 <= Zpos (digits2_pos p)).
  { rewrite FloatFacts.digits2_pos_log2.
    pose proof (Z.log2_le_mono _ _ Hp) as H.
    rewrite Z.log2_pow2 in H by lia. lia. }
  assert (Hspec : 2 ^ (Zpos (digits2_pos p) - 1) <= Zpos p
                  < 2 ^ Zpos (digits2_pos p)).
  { rewrite FloatFacts.digits2_pos_log2.
    replace (Z.log2 (Zpos p) + 1 - 1) with (Z.log2 (Zpos p)) by lia.
    apply Z.log2_spec. lia. }
  set (d := Zpos (digits2_pos p)) in *.
  unfold binary_round.
  assert (Hfexp : fexp prec emax (Zpos (digits2_pos p) + 0) = d - 53)
    by (unfold fexp, emin, prec, emax; lia).
  rewrite Hfexp. unfold shl_align.
  destruct (d - 53 - 0) as [|j|j] eqn:Hj; try lia.
  unfold binary_round_aux, shr_fexp at 1.
  cbn [Zdigits2 shr_record_of_loc].
  rewrite Hfexp, Hj. cbn [shr].
  set (mrs := iter_pos shr_1 j _).
  assert (Hm1 : 2 ^ 52 <= shr_m mrs < 2 ^ 53).
  { unfold mrs. rewrite shr_pos_m by lia.
    replace (Zpos j) with (d - 53) by lia. split.
    - apply Z.div_le_lower_bound; [apply Z.pow_pos_nonneg; lia|].
      rewrite <- Z.pow_add_r by lia.
      replace (d - 53 + 52) with (d - 1) by lia. apply Hspec.
    - apply Z.div_lt_upper_bound; [apply Z.pow_pos_nonneg; lia|].
      rewrite <- Z.pow_add_r by lia.
      replace (d - 53 + 53) with d by lia. apply Hspec. }
  pose proof (round_nearest_even_range (shr_m mrs) (loc_of_shr_record mrs))
    as Hm2.
  set (m2 := round_nearest_even (shr_m mrs) (loc_of_shr_record mrs)) in *.
  assert (Hpos : 0 < m2) by lia.
  destruct m2 as [|p2|p2] eqn:Em2; try lia.
  unfold shr_fexp. cbn [Zdigits2 shr_record_of_loc].
  assert (Hd2 : Zpos (digits2_pos p2) = 53 \/ Zpos (digits2_pos p2) = 54).
  { rewrite FloatFacts.digits2_pos_log2.
    destruct (Z.eq_dec (Zpos p2) (2 ^ 53)) as [->|Hne].
    - right. rewrite Z.log2_pow2; lia.
    - left. assert (Z.log2 (Zpos p2) = 52); [|lia].
      apply Z.log2_unique; lia. }
  assert (Hshift :
            fexp prec emax (Zpos (digits2_pos p2) + (0 + Zpos j))
            - (0 + Zpos j)
            = Zpos (digits2_pos p2) - 53)
    by (unfold fexp, emin, prec, emax; lia).
  rewrite Hshift.
  assert (Hbig : forall k, 0 <= k -> (0 + Zpos j + k <=? emax - prec) = false)
    by (intros k Hk; apply Z.leb_gt; unfold emax, prec; lia).
  destruct Hd2 as [-> | ->].
  - change (53 - 53) with 0. cbn [shr shr_m].
    specialize (Hbig 0 ltac:(lia)).
    assert (Hle : (0 + Zpos j <=? emax - prec) = false)
      by (apply Z.leb_gt; unfold emax, prec; lia).
    rewrite Hle. reflexivity.
  - change (54 - 53) with 1. cbn [shr].
    rewrite shr_pos_m by lia.
    assert (Hhalf : 0 < Zpos p2 / 2 ^ 1)
      by (apply Z.div_str_pos; lia).
    destruct (Zpos p2 / 2 ^ 1) as [|q|q]; try lia.
    rewrite (Hbig 1 ltac:(lia)). reflexivity.
Qed.

(** [float(z)] raises for every [int] from [2^1024] on. *)
Lemma of_int_overflow (z : Z) :
  2 ^ 1024 <= z ->
  of_int z
  = Raise (Exn OverflowError (lit "int too large to convert to float") None).
Proof.
  intros Hz. unfold of_int.
  assert (Hpos : 0 < z) by (pose proof (Z.pow_pos_nonneg 2 1024); lia).
  destruct z as [|p|p]; try lia.
  cbn [binary_normalize]. now rewrite binary_round_overflow.
Qed.

End OverflowFacts.

(** A rotation time of [2^1024] seconds or more cannot be added to the
    clock reading: once the resource name is built, [store_private_key]
    fails with [StoreFailure] of an [OverflowError] and does not attempt
    the write. *)
Theorem store_private_key_rejects_huge_rotation_time {S}
        (client : SecretManagerServiceClient S)
        (project name private_key version : str) (rotation_time : Z)
        (w : World S) (secret : str) (s1 : S) :
  secret_version_path client project name version (service w)
  = (Ok secret, s1) ->
  (2 ^ 1024 <= rotation_time)%Z ->
  fst (store_private_key client project name private_key version
                         rotation_time w)
  = Raise (StoreFailure
             (Exn OverflowError
                  (lit "int too large to convert to float") None))
  /\ calls (snd (store_private_key client project name private_key version
                                   rotation_time w))
     = calls w
         ++ [mkEvent (secret_version_path_call project name version) None]
  /\ service (snd (store_private_key client project name private_key
                                     version rotation_time w)) = s1.
Proof.
  intros Hpath Hbig.
  pose proof (store_private_key_steps client project name private_key
                                      version rotation_time w) as H.
  cbv zeta in H. rewrite Hpath in H.
  unfold next_rotation_seconds, Float.add_int in H.
  rewrite OverflowFacts.of_int_overflow in H by exact Hbig.
  exact H.
Qed.

Lemma store_private_key_rejects_huge_rotation_time_witness :
  (2 ^ 1024 <= 2 ^ 1024)%Z
  /\ fst (store_private_key InMemory.client (lit "p1") (lit "wallet-a")
                            Sample.key default_version (2 ^ 1024)
                            (Sample.world []))
     = Raise (StoreFailure
                (Exn OverflowError
                     (lit "int too large to convert to float") None)).
Proof.
  assert (Hbig : (2 ^ 1024 <= 2 ^ 1024)%Z) by lia.
  split; [exact Hbig|].
  exact (proj1 (@store_private_key_rejects_huge_rotation_time
                  _ InMemory.client (lit "p1") (lit "wallet-a") Sample.key
                  default_version (2 ^ 1024)%Z (Sample.world [])
                  Sample.wallet_path [] eq_refl Hbig)).
Defined.




(** ** The decoder's report of a malformed payload *)

Module LocateFacts.
Import Utf8 Utf8Facts.

Local Open Scope N_scope.

Ltac split_tests :=
  repeat match goal with
    | |- context [(?a =? ?b)] => destruct (N.eqb_spec a b); try lia
    | |- context [(?a <? ?b)] => destruct (N.ltb_spec a b); try lia
    | |- context [(?a <=? ?b)] => destruct (N.leb_spec a b); try lia
    end; cbn [andb orb negb].

(** Whenever the input does not decode, the failure is located: the
    message of the [UnicodeDecodeError] is always that of a failure. *)
Lemma locate_complete (bs : list N) :
  forall pos, decode_N bs = None -> exists f, locate bs pos = Some f.
Proof.
  remember (List.length bs) as n eqn:Hn.
  revert bs Hn. induction n as [n IH] using lt_wf_ind. intros bs Hn pos.
  destruct bs as [|b0 r0]; [discriminate|].
  assert (Hrec : forall r p, (List.length r < n)%nat -> decode_N r = None ->
                             exists f, locate r p = Some f).
  { intros r p Hlt Hr. exact (IH _ Hlt r eq_refl p Hr). }
  assert (Hstep : forall r p (c : N),
             (List.length r < n)%nat ->
             option_map (cons c) (decode_N r) = None ->
             exists f, locate r p = Some f).
  { intros r p c Hlt Hr. apply Hrec; [exact Hlt|].
    destruct (decode_N r); [discriminate|reflexivity]. }
  clear IH. subst n.
  cbn [decode_N locate]. unfold between, cont.
  destruct (N.ltb_spec b0 128).
  { intros Hnone. apply (Hstep r0 _ b0); [simpl; lia | exact Hnone]. }
  destruct (N.ltb_spec b0 194).
  { intros _. eauto. }
  destruct (N.ltb_spec b0 224).
  { destruct r0 as [|b1 r1]; [eauto|].
    split_tests; intros Hnone;
      first [ discriminate | solve [eauto]
            | eapply (Hstep r1); [simpl; lia | exact Hnone] ]. }
  destruct (N.ltb_spec b0 240).
  { destruct r0 as [|b1 [|b2 r2]]; [eauto| |];
      split_tests; intros Hnone;
      first [ discriminate | solve [eauto]
            | eapply (Hstep r2); [simpl; lia | exact Hnone] ]. }
  destruct (N.ltb_spec b0 245).
  { destruct r0 as [|b1 [|b2 [|b3 r3]]]; [eauto| | |];
      split_tests; intros Hnone;
      first [ discriminate | solve [eauto]
            | eapply (Hstep r3); [simpl; lia | exact Hnone] ]. }
  split_tests. intros _. eauto.
Qed.

End LocateFacts.

(** The exception [decode] raises on malformed octets is the report of a
    located failure. *)
Lemma py_decode_failure (b : bytes) (e : exn) :
  py_decode (VBytes b) = Raise e ->
  exists f,
    Utf8.locate (List.map Byte.to_N b) 0 = Some f
    /\ e = Exn UnicodeDecodeError (Utf8.failure_text f) None.
Proof.
  unfold py_decode, Utf8.decode, Utf8.message.
  destruct (Utf8.decode_N (List.map Byte.to_N b)) as [s|] eqn:Hdec;
    [discriminate|].
  destruct (LocateFacts.locate_complete _ 0 Hdec) as [f Hf].
  rewrite Hf. intros H. exists f. split; [reflexivity|].
  now inversion H.
Qed.

(** The report for the octets FF FE. *)
Example message_of_binary_store :
  Utf8.message [Byte.xff; Byte.xfe]
  = lit "'utf-8' codec can't decode byte 0xff in position 0: invalid start byte".
Proof. reflexivity. Qed.
